(** * Log filtering of the run log pane: [filterLogs]

    A shallow embedding of [filterLogs] (the client-side filter applied to a
    run's event log before it is displayed) and of the JavaScript string
    operations it relies on, followed by the properties the specification
    states about it.

    Modelling conventions.
    - A log node is a record with the five fields the function reads.
      [Number(node.timestamp)] is the integer of the data model, a [Z];
      timestamps that do not parse as integers are outside the model.
    - Nullable fields ([stepKey], [eventType], [token], [sinceTime]) are
      [option]s; a JavaScript truthiness test on a nullable string is
      [truthy], which also rejects the empty string, and on a nullable
      number it rejects [0].
    - [filter.levels] is a finite map from levels to booleans; a missing key
      reads as [undefined], which is falsy.
    - Strings are [string]s of 8-bit characters, the bytes of the text in
      UTF-8.
    - The level classifier [logNodeLevel] and the display mapping
      [eventTypeToDisplayType] live in other modules and are parameters.
      So is the built-in [String.prototype.toLowerCase], which is
      Unicode-aware: where a property depends on what it does, the
      property assumes [lowersAscii], that ASCII letters are lower-cased
      letter by letter and in place; [asciiLowerCase] is the function on
      ASCII text.
    - [filterLogs] takes records of the declared type, whose [message] is
      a string; [filterLogsRaw] follows the same source on records that
      may lack a message, where the call can raise. *)

From Stdlib Require Import ZArith List Bool Ascii String.
From stdpp Require Import base gmap strings list.

Local Open Scope string_scope.
Local Open Scope Z_scope.

(** ** JavaScript string operations *)

Module JsString.

(** One character of [String.prototype.toLowerCase], on ASCII. *)
Definition lowerChar (c : ascii) : ascii :=
  let n := nat_of_ascii c in
  if (65 <=? n)%nat && (n <=? 90)%nat then ascii_of_nat (n + 32) else c.

(** [String.prototype.toLowerCase] on ASCII text: the letters [A]-[Z] are
    mapped to [a]-[z], every other character is kept. *)
Fixpoint asciiLowerCase (s : string) : string :=
  match s with
  | EmptyString => EmptyString
  | String c rest => String (lowerChar c) (asciiLowerCase rest)
  end.

(** A text of ASCII characters only (codes below 128). *)
Fixpoint isAscii (s : string) : bool :=
  match s with
  | EmptyString => true
  | String c rest => (nat_of_ascii c <? 128)%nat && isAscii rest
  end.

(** What is assumed of [String.prototype.toLowerCase], which is Unicode-aware
    and is not modelled: it lower-cases an ASCII text letter by letter, and
    it lower-cases the ASCII characters of any text in place, whatever
    surrounds them (its context-sensitive rules concern other characters).
    [asciiLowerCase] itself satisfies both. *)
Definition lowersAscii (lower : string → string) : Prop :=
  (∀ s, isAscii s = true → lower s = asciiLowerCase s) ∧
  (∀ a w b, isAscii w = true →
            ∃ a' b', lower (a +:+ w +:+ b) = a' +:+ asciiLowerCase w +:+ b').

(** Two characters that are the same up to the case of an ASCII letter, and
    two texts that are the same up to the case of their ASCII letters. *)
Definition sameLetter (c d : ascii) : Prop :=
  let n := nat_of_ascii c in
  let m := nat_of_ascii d in
  n = m ∨
  ((65 ≤ n)%nat ∧ (n ≤ 90)%nat ∧ m = (n + 32)%nat) ∨
  ((65 ≤ m)%nat ∧ (m ≤ 90)%nat ∧ n = (m + 32)%nat).

Fixpoint sameIgnoringCase (s t : string) : Prop :=
  match s, t with
  | EmptyString, EmptyString => True
  | String c s', String d t' => sameLetter c d ∧ sameIgnoringCase s' t'
  | _, _ => False
  end.

(** [s.startsWith(p)]. *)
Fixpoint startsWith (s p : string) {struct p} : bool :=
  match p, s with
  | EmptyString, _ => true
  | String _ _, EmptyString => false
  | String c p', String d s' => Ascii.eqb c d && startsWith s' p'
  end.

(** [s.includes(t)]: [t] occurs in [s] at some offset. *)
Fixpoint includes (s t : string) : bool :=
  startsWith s t ||
  match s with
  | EmptyString => false
  | String _ rest => includes rest t
  end.

(** Truthiness of a nullable string: present and not empty. *)
Definition truthy (o : option string) : bool :=
  match o with
  | Some (String _ _) => true
  | _ => false
  end.

End JsString.

Import JsString.

(** ** Data model *)

Record LogNode := {
  typename : string;            (* node.__typename *)
  timestamp : Z;                (* Number(node.timestamp) *)
  stepKey : option string;
  eventType : option string;
  message : string
}.

Record LogFilterValue := {
  token : option string;
  value : string
}.

Record LogsProviderLogs := {
  allNodes : list LogNode
}.

Record FilterResult := {
  filteredNodes : list LogNode;
  textMatchNodes : list LogNode
}.

Section FilterLogs.

Context `{Countable Level}.

Record LogFilter := {
  logQuery : list LogFilterValue;
  levels : gmap Level bool;
  sinceTime : option Z;
  hideNonMatches : bool
}.

Variable logNodeLevel : LogNode → Level.
Variable eventTypeToDisplayType : string → string.
Variable toLowerCase : string → string.

(** The two planning event kinds removed on the client. *)
Definition isPlannedEvent (node : LogNode) : bool :=
  String.eqb (typename node) "AssetMaterializationPlannedEvent" ||
  String.eqb (typename node) "AssetCheckEvaluationPlannedEvent".

(** [!filter.levels[l]] with [l = logNodeLevel(node)]. *)
Definition levelOff (filter : LogFilter) (node : LogNode) : bool :=
  match levels filter !! logNodeLevel node with
  | Some true => false
  | _ => true
  end.

(** [filter.sinceTime && Number(node.timestamp) < filter.sinceTime]. *)
Definition beforeSinceTime (filter : LogFilter) (node : LogNode) : bool :=
  match sinceTime filter with
  | Some t => negb (t =? 0) && (timestamp node <? t)
  | None => false
  end.

(** The callback of the first [allNodes.filter]. *)
Definition keepNode (filter : LogFilter) (node : LogNode) : bool :=
  if isPlannedEvent node then false
  else if levelOff filter node then false
  else if beforeSinceTime filter node then false
  else true.

(** [const filteredNodes = logs.allNodes.filter(...)]: the nodes that pass
    the kind, level and time stages. *)
Definition levelTimeNodes (logs : LogsProviderLogs) (filter : LogFilter)
  : list LogNode :=
  List.filter (keepNode filter) (allNodes logs).

(** [!!(filter.logQuery[0] && filter.logQuery[0].value !== '')]. *)
Definition hasTextFilter (filter : LogFilter) : bool :=
  match logQuery filter with
  | f :: _ => negb (String.eqb (value f) "")
  | [] => false
  end.

(** [filterStepKeys.includes(k)]. *)
Definition includesKey (filterStepKeys : list string) (k : string) : bool :=
  existsb (String.eqb k) filterStepKeys.

(** The callback of [filter.logQuery.every], its result read as a boolean. *)
Definition matchesTerm (filterStepKeys : list string) (node : LogNode)
           (f : LogFilterValue) : bool :=
  if decide (token f = Some "query") then
    truthy (stepKey node) &&
    match stepKey node with
    | Some k => includesKey filterStepKeys k
    | None => false
    end
  else if decide (token f = Some "step") then
    truthy (stepKey node) && bool_decide (stepKey node = Some (value f))
  else if decide (token f = Some "type") then
    truthy (eventType node) &&
    match eventType node with
    | Some e => String.eqb (value f) (eventTypeToDisplayType e)
    | None => false
    end
  else includes (toLowerCase (message node)) (toLowerCase (value f)).

(** The callback of the second filter:
    [filter.logQuery.length > 0 && filter.logQuery.every(...)]. *)
Definition matchesQuery (filter : LogFilter) (filterStepKeys : list string)
           (node : LogNode) : bool :=
  (0 <? Z.of_nat (length (logQuery filter))) &&
  forallb (matchesTerm filterStepKeys node) (logQuery filter).

Definition filterLogs (logs : LogsProviderLogs) (filter : LogFilter)
           (filterStepKeys : list string) : FilterResult :=
  let filteredNodes0 := levelTimeNodes logs filter in
  let textMatchNodes0 :=
    if hasTextFilter filter
    then List.filter (matchesQuery filter filterStepKeys) filteredNodes0
    else [] in
  {| filteredNodes :=
       if hasTextFilter filter && hideNonMatches filter
       then textMatchNodes0 else filteredNodes0;
     textMatchNodes := textMatchNodes0 |}.

(** ** Notions of the specification *)

(** A query is active when [logQuery] is non-empty and the value of its
    first term is not the empty string. *)
Definition queryActive (filter : LogFilter) : Prop :=
  match logQuery filter with
  | f :: _ => value f ≠ ""
  | [] => False
  end.

#[export] Instance queryActive_dec filter : Decision (queryActive filter).
Proof. unfold queryActive. destruct (logQuery filter); apply _. Defined.

(** The text-matched set: the level/time-surviving records on which every
    term of the query evaluates true. *)
Definition textMatchedSet (logs : LogsProviderLogs) (filter : LogFilter)
           (filterStepKeys : list string) : list LogNode :=
  List.filter
    (fun node =>
       forallb (matchesTerm filterStepKeys node) (logQuery filter))
    (levelTimeNodes logs filter).

(** The reserved planning kinds. *)
Definition reservedKind (node : LogNode) : Prop :=
  typename node = "AssetMaterializationPlannedEvent" ∨
  typename node = "AssetCheckEvaluationPlannedEvent".

(** A token that is none of the recognized ones (or no token at all). *)
Definition defaultToken (f : LogFilterValue) : Prop :=
  token f ≠ Some "query" ∧ token f ≠ Some "step" ∧ token f ≠ Some "type".

(** The same filter with another levels table, or another time floor. *)
Definition withLevels (filter : LogFilter) (m : gmap Level bool) : LogFilter :=
  {| logQuery := logQuery filter; levels := m;
     sinceTime := sinceTime filter; hideNonMatches := hideNonMatches filter |}.

Definition withSinceTime (filter : LogFilter) (t : option Z) : LogFilter :=
  {| logQuery := logQuery filter; levels := levels filter;
     sinceTime := t; hideNonMatches := hideNonMatches filter |}.

End FilterLogs.

Arguments LogFilter Level {_ _}.

(** ** Records that lack fields: evaluation with exceptions

    [filterLogs] above takes records of the declared type, in which
    [message] is a string. The JavaScript function can also be handed a
    record without a message; reading [node.message.toLowerCase()] on it
    raises a [TypeError], which ends the whole call. The definitions below
    follow the same source with that case made explicit: [every] stops at
    the first term that is false, and [filter] visits the records in
    order. The filter itself is of its declared type: every term has a
    string value. *)

(** How an evaluation ends: with a value, or by raising. *)
Inductive Completion (A : Type) : Type :=
| Returns (a : A)
| Throws.

Arguments Returns {A} a.
Arguments Throws {A}.

Record RawLogNode := {
  rawTypename : string;
  rawTimestamp : Z;
  rawStepKey : option string;
  rawEventType : option string;
  rawMessage : option string
}.

Record RawResult := {
  rawFilteredNodes : list RawLogNode;
  rawTextMatchNodes : list RawLogNode
}.

(** A record of the declared type, as the function receives it. *)
Definition ofLogNode (node : LogNode) : RawLogNode :=
  {| rawTypename := typename node; rawTimestamp := timestamp node;
     rawStepKey := stepKey node; rawEventType := eventType node;
     rawMessage := Some (message node) |}.

Definition ofResult (r : FilterResult) : RawResult :=
  {| rawFilteredNodes := map ofLogNode (filteredNodes r);
     rawTextMatchNodes := map ofLogNode (textMatchNodes r) |}.

(** [array.filter(callback)] for a callback that may raise. *)
Fixpoint filterThrowing {A} (callback : A → Completion bool) (l : list A)
  : Completion (list A) :=
  match l with
  | [] => Returns []
  | x :: rest =>
      match callback x with
      | Throws => Throws
      | Returns b =>
          match filterThrowing callback rest with
          | Throws => Throws
          | Returns kept => Returns (if b then x :: kept else kept)
          end
      end
  end.

Section Throwing.

Context `{Countable Level}.
Variable rawNodeLevel : RawLogNode → Level.
Variable eventTypeToDisplayType : string → string.
Variable toLowerCase : string → string.

(** The callback of the first filter; it reads no field that can raise. *)
Definition keepRawNode (filter : LogFilter Level) (node : RawLogNode) : bool :=
  if String.eqb (rawTypename node) "AssetMaterializationPlannedEvent" ||
     String.eqb (rawTypename node) "AssetCheckEvaluationPlannedEvent"
  then false
  else if match levels filter !! rawNodeLevel node with
          | Some true => false
          | _ => true
          end
  then false
  else if match sinceTime filter with
          | Some t => negb (t =? 0) && (rawTimestamp node <? t)
          | None => false
          end
  then false
  else true.

(** The callback of [filter.logQuery.every]. Only its last line calls a
    method on a field of the record. *)
Definition evalTerm (filterStepKeys : list string) (node : RawLogNode)
           (f : LogFilterValue) : Completion bool :=
  if decide (token f = Some "query") then
    Returns (truthy (rawStepKey node) &&
             match rawStepKey node with
             | Some k => includesKey filterStepKeys k
             | None => false
             end)
  else if decide (token f = Some "step") then
    Returns (truthy (rawStepKey node) &&
             bool_decide (rawStepKey node = Some (value f)))
  else if decide (token f = Some "type") then
    Returns (truthy (rawEventType node) &&
             match rawEventType node with
             | Some e => String.eqb (value f) (eventTypeToDisplayType e)
             | None => false
             end)
  else
    match rawMessage node with
    | Some m => Returns (includes (toLowerCase m) (toLowerCase (value f)))
    | None => Throws
    end.

(** [query.every(...)]: the terms in order, up to the first that is false. *)
Fixpoint everyTerm (filterStepKeys : list string) (node : RawLogNode)
         (query : list LogFilterValue) : Completion bool :=
  match query with
  | [] => Returns true
  | f :: rest =>
      match evalTerm filterStepKeys node f with
      | Throws => Throws
      | Returns false => Returns false
      | Returns true => everyTerm filterStepKeys node rest
      end
  end.

(** [filter.logQuery.length > 0 && filter.logQuery.every(...)]. *)
Definition evalQuery (filter : LogFilter Level) (filterStepKeys : list string)
           (node : RawLogNode) : Completion bool :=
  if 0 <? Z.of_nat (length (logQuery filter))
  then everyTerm filterStepKeys node (logQuery filter)
  else Returns false.

Definition filterLogsRaw (allNodes : list RawLogNode) (filter : LogFilter Level)
           (filterStepKeys : list string) : Completion RawResult :=
  let filteredNodes0 := List.filter (keepRawNode filter) allNodes in
  match (if hasTextFilter filter
         then filterThrowing (evalQuery filter filterStepKeys) filteredNodes0
         else Returns [])
  with
  | Throws => Throws
  | Returns textMatchNodes0 =>
      Returns
        {| rawFilteredNodes :=
             if hasTextFilter filter && hideNonMatches filter
             then textMatchNodes0 else filteredNodes0;
           rawTextMatchNodes := textMatchNodes0 |}
  end.

End Throwing.

(** ** Sample data, with levels named by strings *)

Module Sample.

Definition level (node : LogNode) : string :=
  if String.eqb (typename node) "ExecutionStepFailureEvent"
  then "ERROR" else "INFO".

Definition display (e : string) : string :=
  if String.eqb e "ASSET_MATERIALIZATION" then "MATERIALIZATION" else e.

Definition node (kind : string) (ts : Z) (step : option string)
           (msg : string) : LogNode :=
  {| typename := kind; timestamp := ts; stepKey := step;
     eventType := None; message := msg |}.

Definition nodeA : LogNode := node "LogMessageEvent" 10 (Some "A") "foobar".
Definition nodeB : LogNode := node "LogMessageEvent" 11 (Some "B") "foobar".
Definition runNode : LogNode := node "RunStartEvent" 12 None "Step Failed".
Definition failed : LogNode :=
  node "ExecutionStepFailureEvent" 13 (Some "A") "Step Failed".
Definition planned : LogNode :=
  node "AssetMaterializationPlannedEvent" 14 (Some "A") "foobar".
Definition early : LogNode := node "LogMessageEvent" (-1) None "foobar".

Definition logs : LogsProviderLogs :=
  {| allNodes := [early; nodeA; nodeB; runNode; failed; planned] |}.

Definition term (tok : option string) (v : string) : LogFilterValue :=
  {| token := tok; value := v |}.

Definition infoOnly : gmap string bool := {[ "INFO" := true; "ERROR" := false ]}.
Definition allOn : gmap string bool := {[ "INFO" := true; "ERROR" := true ]}.

Definition mkFilter (q : list LogFilterValue) (m : gmap string bool)
           (since : option Z) (hide : bool) : LogFilter string :=
  {| logQuery := q; levels := m; sinceTime := since; hideNonMatches := hide |}.

Definition stepAndFoo : list LogFilterValue :=
  [term (Some "step") "A"; term None "foo"].

Definition run (filter : LogFilter string) (keys : list string) : FilterResult :=
  filterLogs level display asciiLowerCase logs filter keys.

(** A two-term query, all levels on, non-matches shown. *)
Definition andFilter : LogFilter string := mkFilter stepAndFoo allOn None false.

(** No query; a time floor of [0], and one of [12]. *)
Definition zeroFloor : LogFilter string := mkFilter [] allOn (Some 0) false.
Definition floor12 : LogFilter string := mkFilter [] allOn (Some 12) false.

(** No query; errors switched off. *)
Definition infoFilter : LogFilter string := mkFilter [] infoOnly None false.

End Sample.


(** ** Further filter updates *)

Section FilterUpdates.

Context `{Countable Level}.

(** The same filter with another query. *)
Definition withLogQuery (filter : LogFilter Level) (q : list LogFilterValue)
  : LogFilter Level :=
  {| logQuery := q; levels := levels filter;
     sinceTime := sinceTime filter; hideNonMatches := hideNonMatches filter |}.

(** The time stage keeps a node: no floor, a floor of [0], or a floor not
    above the node's timestamp. *)
Definition atOrAfterFloor (filter : LogFilter Level) (node : LogNode) : Prop :=
  ∀ t, sinceTime filter = Some t → t ≠ 0 → t ≤ timestamp node.

End FilterUpdates.

(** A batch of log nodes as a [LogsProviderLogs]. *)
Definition batch (nodes : list LogNode) : LogsProviderLogs :=
  {| allNodes := nodes |}.

(** ** The instance configuration page: [InstanceConfig]

    The page splits the instance's YAML text into its top-level sections,
    gives each section an element id and a link to [#id], highlights the
    section named by the current location hash and, once loaded, scrolls to
    the element named by that hash. The pure parts of the component are
    embedded: the two [split]s, the hash of a section, the highlight test
    and the id handed to [getElementById]. The bytes of a non-ASCII
    character are neither word characters, nor newlines, nor colons, so
    both splits cut a text at the same places as on its characters. *)

Module InstanceConfig.

(** The regular expression class [\w]: ASCII letters, digits, underscore. *)
Definition isWordChar (c : ascii) : bool :=
  let n := nat_of_ascii c in
  ((48 <=? n)%nat && (n <=? 57)%nat) ||
  ((65 <=? n)%nat && (n <=? 90)%nat) ||
  (n =? 95)%nat ||
  ((97 <=? n)%nat && (n <=? 122)%nat).

(** The lookahead [(?=\w)] at the start of [s]. *)
Definition startsWithWordChar (s : string) : bool :=
  match s with
  | String c _ => isWordChar c
  | EmptyString => false
  end.

Definition newline : ascii := "010"%char.
Definition colon : ascii := ":"%char.

(** [s.split(re)] for a regular expression that matches one character,
    possibly looking ahead: [isSep c rest] tells whether the expression
    matches at a character [c] followed by [rest]. The matched character is
    dropped and the text between matches is returned, in order. *)
Fixpoint splitWhere (isSep : ascii → string → bool) (s : string) : list string :=
  match s with
  | EmptyString => [EmptyString]
  | String c rest =>
      if isSep c rest then EmptyString :: splitWhere isSep rest
      else match splitWhere isSep rest with
           | piece :: more => String c piece :: more
           | [] => [String c EmptyString]
           end
  end.

(** The expression [/\n(?=\w)/]: a newline followed by a word character. *)
Definition topLevelBreak (c : ascii) (rest : string) : bool :=
  Ascii.eqb c newline && startsWithWordChar rest.

(** The expression [/\:/]. *)
Definition isColon (c : ascii) (rest : string) : bool := Ascii.eqb c colon.

(** [data.instance.info.split(/\n(?=\w)/g)]. *)
Definition splitSections (info : string) : list string :=
  splitWhere topLevelBreak info.

(** [const [id] = section.split(/\:/)]. *)
Definition sectionId (section : string) : string :=
  hd EmptyString (splitWhere isColon section).

(** [`#${id}`]. *)
Definition hashForSection (id : string) : string := String "#" id.

(** What is rendered for one section: the element id of its box, the target
    of its link, whether it is highlighted, and the text shown. *)
Record SectionBox := {
  boxId : string;
  linkTo : string;
  highlighted : bool;
  sectionValue : string
}.

Definition renderSection (hash section : string) : SectionBox :=
  let id := sectionId section in
  {| boxId := id;
     linkTo := "/instance/config" +:+ hashForSection id;
     highlighted := String.eqb hash (hashForSection id);
     sectionValue := section |}.

(** The boxes of the page when the data is loaded. *)
Definition renderSections (info hash : string) : list SectionBox :=
  map (renderSection hash) (splitSections info).

(** The scroll effect: the id looked up with [getElementById], if any.
    [documentHash.slice(1)] is taken when [documentHash] is not empty. *)
Definition scrollTarget (documentHash : string) : option string :=
  match documentHash with
  | EmptyString => None
  | String _ target => Some target
  end.

(** [pieces.join(sep)], the inverse the page never calls but the split is
    measured against. *)
Fixpoint join (sep : ascii) (pieces : list string) : string :=
  match pieces with
  | [] => EmptyString
  | [piece] => piece
  | piece :: more => piece +:+ String sep (join sep more)
  end.

(** Sample instance information. *)
Definition sampleInfo : string :=
  "local_artifact_storage:" +:+ String newline
  ("  module: dagster.core.storage.root" +:+ String newline
  ("run_storage:" +:+ String newline
  ("  class: SqliteRunStorage" +:+ String newline
  "telemetry: {}"))).

Definition sampleFirst : string :=
  "local_artifact_storage:" +:+ String newline
  "  module: dagster.core.storage.root".

Definition sampleSecond : string :=
  "run_storage:" +:+ String newline "  class: SqliteRunStorage".

End InstanceConfig.

(** ** More sample data *)

Module Demo.

Definition typed : LogNode :=
  {| typename := "MaterializationEvent"; timestamp := 15; stepKey := Some "";
     eventType := Some "ASSET_MATERIALIZATION"; message := "Materialized" |}.

Definition page1 : list LogNode := [Sample.early; Sample.nodeA; Sample.planned].
Definition page2 : list LogNode := [Sample.nodeB; Sample.failed; typed].

Definition fooQuery : list LogFilterValue := [Sample.term None "FOO"].
Definition scopeQuery : list LogFilterValue := [Sample.term (Some "query") "x"].

Definition fooHidden : LogFilter string :=
  Sample.mkFilter fooQuery Sample.allOn None true.
Definition scopeFilter : LogFilter string :=
  Sample.mkFilter scopeQuery Sample.allOn None true.
Definition floor11 : LogFilter string :=
  Sample.mkFilter fooQuery Sample.allOn (Some 11) true.
Definition plain : LogFilter string :=
  Sample.mkFilter [] Sample.allOn None true.

Definition fooThenStep : list LogFilterValue :=
  [Sample.term None "foo"; Sample.term (Some "step") "A"].
Definition stepTerm : LogFilterValue := Sample.term (Some "step") "A".
Definition scopeTerm : LogFilterValue := Sample.term (Some "query") "x".
Definition typeTerm : LogFilterValue := Sample.term (Some "type") "MATERIALIZATION".

(** A record without a message and without a step key, and the level of a
    record that may lack fields. *)
Definition noMessage : RawLogNode :=
  {| rawTypename := "EngineEvent"; rawTimestamp := 16; rawStepKey := None;
     rawEventType := None; rawMessage := None |}.

Definition rawLevel (node : RawLogNode) : string :=
  if String.eqb (rawTypename node) "ExecutionStepFailureEvent"
  then "ERROR" else "INFO".

Definition fooShown : LogFilter string :=
  Sample.mkFilter fooQuery Sample.allOn None false.

Definition runRaw (nodes : list RawLogNode) (filter : LogFilter string)
           (keys : list string) : Completion RawResult :=
  filterLogsRaw rawLevel Sample.display asciiLowerCase nodes filter keys.

End Demo.


(** ** Facts about the string operations *)

Lemma startsWith_spec (s p : string) :
  startsWith s p = true ↔ ∃ b, s = p +:+ b.
Proof.
  revert s. induction p as [|c p IH]; intros s; simpl.
  - split; [intros _; by exists s | reflexivity].
  - destruct s as [|d s].
    + split; [discriminate | intros [b Hb]; discriminate].
    + rewrite andb_true_iff, Ascii.eqb_eq, IH. split.
      * intros [-> [b ->]]. by exists b.
      * intros [b Hb]. injection Hb as -> ->. eauto.
Qed.

Lemma includes_intro (a t b : string) : includes (a +:+ t +:+ b) t = true.
Proof.
  induction a as [|c a IH]; simpl.
  - assert (Hs : startsWith (t +:+ b) t = true) by (apply startsWith_spec; eauto).
    destruct (t +:+ b); simpl; rewrite Hs; done.
  - rewrite IH. apply orb_true_r.
Qed.

Lemma includes_spec (s t : string) :
  includes s t = true ↔ ∃ a b, s = a +:+ t +:+ b.
Proof.
  split.
  - induction s as [|c s IH]; simpl; rewrite orb_true_iff.
    + intros [Hs | ?]; [| done].
      apply startsWith_spec in Hs as [b Hb]. by exists "", b.
    + intros [Hs | Hi].
      * apply startsWith_spec in Hs as [b Hb]. by exists "", b.
      * destruct (IH Hi) as (a & b & ->). by exists (String c a), b.
  - intros (a & b & ->). apply includes_intro.
Qed.

Lemma includes_empty (s : string) : includes s "" = true.
Proof. by destruct s. Qed.

Lemma asciiLowerCase_app (s t : string) :
  asciiLowerCase (s +:+ t) = asciiLowerCase s +:+ asciiLowerCase t.
Proof. induction s as [|c s IH]; simpl; [done | by rewrite IH]. Qed.

Lemma asciiLowerCase_lowersAscii : lowersAscii asciiLowerCase.
Proof.
  split; [done |]. intros a w b _.
  exists (asciiLowerCase a), (asciiLowerCase b).
  by rewrite !asciiLowerCase_app.
Qed.

Lemma lowerChar_code (c : ascii) :
  nat_of_ascii (lowerChar c) =
  if (65 <=? nat_of_ascii c)%nat && (nat_of_ascii c <=? 90)%nat
  then (nat_of_ascii c + 32)%nat else nat_of_ascii c.
Proof.
  unfold lowerChar.
  destruct ((65 <=? nat_of_ascii c)%nat && (nat_of_ascii c <=? 90)%nat) eqn:Hu;
    [| done].
  apply andb_true_iff in Hu as [_ Hle]. apply Nat.leb_le in Hle.
  apply nat_ascii_embedding. lia.
Qed.

Lemma lowerChar_sameLetter (c d : ascii) :
  lowerChar c = lowerChar d ↔ sameLetter c d.
Proof.
  unfold sameLetter. split.
  - intros Heq. apply (f_equal nat_of_ascii) in Heq.
    rewrite !lowerChar_code in Heq.
    destruct (Nat.leb_spec 65 (nat_of_ascii c)),
      (Nat.leb_spec (nat_of_ascii c) 90),
      (Nat.leb_spec 65 (nat_of_ascii d)),
      (Nat.leb_spec (nat_of_ascii d) 90); simpl in Heq; lia.
  - intros Hs. rewrite <- (ascii_nat_embedding (lowerChar c)).
    rewrite <- (ascii_nat_embedding (lowerChar d)). f_equal.
    rewrite !lowerChar_code.
    destruct (Nat.leb_spec 65 (nat_of_ascii c)),
      (Nat.leb_spec (nat_of_ascii c) 90),
      (Nat.leb_spec 65 (nat_of_ascii d)),
      (Nat.leb_spec (nat_of_ascii d) 90); simpl; lia.
Qed.

Lemma asciiLowerCase_sameIgnoringCase (s t : string) :
  asciiLowerCase s = asciiLowerCase t ↔ sameIgnoringCase s t.
Proof.
  revert t. induction s as [|c s IH]; intros [|d t]; simpl; try done.
  rewrite <- IH, <- lowerChar_sameLetter. split.
  - by intros [= -> ->].
  - by intros [-> ->].
Qed.

(** A piece of a lower-cased text is the lower-casing of a piece. *)
Lemma asciiLowerCase_app_inv (s x y : string) :
  asciiLowerCase s = x +:+ y →
  ∃ s1 s2, s = s1 +:+ s2 ∧ asciiLowerCase s1 = x ∧ asciiLowerCase s2 = y.
Proof.
  revert s. induction x as [|c x IH]; intros s Heq.
  - by exists "", s.
  - destruct s as [|d s]; [discriminate |].
    change (String (lowerChar d) (asciiLowerCase s) = String c (x +:+ y)) in Heq.
    injection Heq as Hc Hrest.
    destruct (IH s Hrest) as (s1 & s2 & -> & H1 & H2).
    exists (String d s1), s2. simpl. by rewrite H1, Hc.
Qed.

Lemma sameIgnoringCase_isAscii (s t : string) :
  sameIgnoringCase s t → isAscii t = true → isAscii s = true.
Proof.
  revert t. induction s as [|c s IH]; intros [|d t]; simpl; try done.
  intros [Hl Hs]. rewrite !andb_true_iff, !Nat.ltb_lt.
  intros [Hd Ht]. split; [| by eapply IH].
  unfold sameLetter in Hl. lia.
Qed.

(** ** Facts about [List.filter] *)

Lemma filter_sublist {A} (p : A → bool) (l : list A) :
  sublist (List.filter p l) l.
Proof.
  induction l as [|x l IH]; simpl; [constructor |].
  destruct (p x); by constructor.
Qed.

Lemma filter_sublist_mono {A} (p : A → bool) (l k : list A) :
  sublist l k → sublist (List.filter p l) (List.filter p k).
Proof.
  induction 1 as [|x l k _ IH|x l k _ IH]; simpl; [constructor | |].
  - destruct (p x); [by constructor | done].
  - destruct (p x); [by constructor | done].
Qed.

Lemma sublist_In {A} (l k : list A) (x : A) : sublist l k → In x l → In x k.
Proof.
  induction 1 as [|y l k _ IH|y l k _ IH]; simpl; [done | | by right; auto].
  intros [-> | Hx]; [by left | right; auto].
Qed.

(** ** Properties of [filterLogs] *)

Section Properties.

Context `{Countable Level}.
Variable logNodeLevel : LogNode → Level.
Variable eventTypeToDisplayType : string → string.
Variable toLowerCase : string → string.

Implicit Types (logs : LogsProviderLogs) (filter : LogFilter Level).
Implicit Types (keys : list string) (node : LogNode) (f : LogFilterValue).

Local Abbreviation filterLogs' :=
  (filterLogs logNodeLevel eventTypeToDisplayType toLowerCase).
Local Abbreviation matchesTerm' :=
  (matchesTerm eventTypeToDisplayType toLowerCase).
Local Abbreviation survivors := (levelTimeNodes logNodeLevel).

(** *** The three stages of the first filter *)

Lemma isPlannedEvent_reserved node :
  isPlannedEvent node = true ↔ reservedKind node.
Proof.
  unfold isPlannedEvent, reservedKind.
  by rewrite orb_true_iff, !String.eqb_eq.
Qed.

Lemma levelOff_false filter node :
  levelOff logNodeLevel filter node = false ↔
  levels filter !! logNodeLevel node = Some true.
Proof.
  unfold levelOff.
  destruct (levels filter !! logNodeLevel node) as [[]|]; split; congruence.
Qed.

Lemma keepNode_stages filter node :
  keepNode logNodeLevel filter node = true ↔
  isPlannedEvent node = false ∧
  levelOff logNodeLevel filter node = false ∧
  beforeSinceTime filter node = false.
Proof.
  unfold keepNode.
  destruct (isPlannedEvent node), (levelOff logNodeLevel filter node),
    (beforeSinceTime filter node); intuition congruence.
Qed.

Lemma In_survivors logs filter node :
  In node (survivors logs filter) ↔
  In node (allNodes logs) ∧ keepNode logNodeLevel filter node = true.
Proof. unfold levelTimeNodes. apply filter_In. Qed.

(** *** The query *)

Lemma hasTextFilter_queryActive filter :
  hasTextFilter filter = true ↔ queryActive filter.
Proof.
  unfold hasTextFilter, queryActive.
  destruct (logQuery filter) as [|f q]; [split; [discriminate | tauto] |].
  rewrite negb_true_iff. apply String.eqb_neq.
Qed.

Lemma matchesQuery_active filter keys node :
  hasTextFilter filter = true →
  matchesQuery eventTypeToDisplayType toLowerCase filter keys node =
  forallb (matchesTerm' keys node) (logQuery filter).
Proof.
  unfold hasTextFilter, matchesQuery.
  destruct (logQuery filter); [discriminate | reflexivity].
Qed.

Lemma textMatchNodes_active logs filter keys :
  hasTextFilter filter = true →
  textMatchNodes (filterLogs' logs filter keys) =
  textMatchedSet logNodeLevel eventTypeToDisplayType toLowerCase
    logs filter keys.
Proof.
  intros Ha. unfold filterLogs, textMatchedSet. simpl. rewrite Ha.
  apply filter_ext. intros node. by apply matchesQuery_active.
Qed.

Lemma textMatchNodes_inactive logs filter keys :
  hasTextFilter filter = false →
  textMatchNodes (filterLogs' logs filter keys) = [].
Proof. intros Ha. unfold filterLogs. simpl. by rewrite Ha. Qed.

Lemma textMatchNodes_sublist logs filter keys :
  sublist (textMatchNodes (filterLogs' logs filter keys)) (survivors logs filter).
Proof.
  unfold filterLogs. simpl. destruct (hasTextFilter filter).
  - apply filter_sublist.
  - apply sublist_nil_l.
Qed.

Lemma filteredNodes_sublist logs filter keys :
  sublist (filteredNodes (filterLogs' logs filter keys)) (survivors logs filter).
Proof.
  pose proof (textMatchNodes_sublist logs filter keys) as Ht.
  unfold filterLogs in *. simpl in *.
  by destruct (hasTextFilter filter && hideNonMatches filter).
Qed.

Lemma In_filteredNodes_survivor logs filter keys node :
  In node (filteredNodes (filterLogs' logs filter keys)) →
  In node (survivors logs filter).
Proof. apply sublist_In, filteredNodes_sublist. Qed.

Lemma In_textMatchNodes_survivor logs filter keys node :
  In node (textMatchNodes (filterLogs' logs filter keys)) →
  In node (survivors logs filter).
Proof. apply sublist_In, textMatchNodes_sublist. Qed.

(** A node the first filter rejects is in neither output. *)
Lemma rejected_not_in_result logs filter keys node :
  keepNode logNodeLevel filter node = false →
  ¬ In node (filteredNodes (filterLogs' logs filter keys)) ∧
  ¬ In node (textMatchNodes (filterLogs' logs filter keys)).
Proof.
  intros Hk. split; intros Hin.
  - apply In_filteredNodes_survivor, In_survivors in Hin. destruct Hin. congruence.
  - apply In_textMatchNodes_survivor, In_survivors in Hin. destruct Hin. congruence.
Qed.

(** C1. Result assembly: [textMatchNodes] is the text-matched set when a query
    is active and empty otherwise; [filteredNodes] is [textMatchNodes] when a
    query is active and [hideNonMatches] is on, and the level/time-surviving
    nodes in every other case. *)
Theorem filterLogs_result_assembly logs filter keys :
  textMatchNodes (filterLogs' logs filter keys) =
    (if decide (queryActive filter)
     then textMatchedSet logNodeLevel eventTypeToDisplayType toLowerCase
            logs filter keys
     else []) ∧
  filteredNodes (filterLogs' logs filter keys) =
    (if decide (queryActive filter ∧ hideNonMatches filter = true)
     then textMatchNodes (filterLogs' logs filter keys)
     else survivors logs filter).
Proof.
  pose proof (hasTextFilter_queryActive filter) as Hq. split.
  - case_decide as Ha.
    + apply textMatchNodes_active. by apply Hq.
    + apply textMatchNodes_inactive. apply not_true_is_false. tauto.
  - unfold filterLogs. simpl.
    destruct (hasTextFilter filter) eqn:Ha; simpl.
    + destruct (hideNonMatches filter); case_decide; intuition congruence.
    + case_decide as Hd; [| done]. destruct Hd as [Hd _].
      apply Hq in Hd. discriminate.
Qed.

(** C4. Order preservation: both outputs are sub-sequences of the input
    records; filtering only removes elements. *)
Theorem filterLogs_order_preserved logs filter keys :
  sublist (filteredNodes (filterLogs' logs filter keys)) (allNodes logs) ∧
  sublist (textMatchNodes (filterLogs' logs filter keys)) (allNodes logs).
Proof.
  assert (Hs : sublist (survivors logs filter) (allNodes logs))
    by apply filter_sublist.
  split; (etrans; [| exact Hs]).
  - apply filteredNodes_sublist.
  - apply textMatchNodes_sublist.
Qed.

(** C9. Containment: [textMatchNodes] is always a sub-sequence of
    [filteredNodes], whatever [hideNonMatches] and the query are. *)
Theorem textMatchNodes_within_filteredNodes logs filter keys :
  sublist (textMatchNodes (filterLogs' logs filter keys))
          (filteredNodes (filterLogs' logs filter keys)).
Proof.
  pose proof (textMatchNodes_sublist logs filter keys) as Ht.
  unfold filterLogs in *. simpl in *.
  by destruct (hasTextFilter filter && hideNonMatches filter).
Qed.

(** C2. AND semantics: with an active query, a level/time-surviving node is a
    text match exactly when every term of the query evaluates true on it.
    A step term ["A"] with a free-text term ["foo"] matches a node of step
    ["A"] whose message contains ["foo"], and no node of step ["B"]. The
    first example uses that [toLowerCase] keeps the letters of ["foo"] where
    they are. *)
Theorem textMatch_all_terms :
  (∀ logs filter keys node,
     queryActive filter → In node (survivors logs filter) →
     (In node (textMatchNodes (filterLogs' logs filter keys)) ↔
      ∀ f, In f (logQuery filter) → matchesTerm' keys node f = true)) ∧
  (∀ keys node a b,
     lowersAscii toLowerCase →
     stepKey node = Some "A" → message node = a +:+ "foo" +:+ b →
     forallb (matchesTerm' keys node) Sample.stepAndFoo = true) ∧
  (∀ keys node,
     stepKey node = Some "B" →
     forallb (matchesTerm' keys node) Sample.stepAndFoo = false).
Proof.
  split; [| split].
  - intros logs filter keys node Ha Hs.
    apply hasTextFilter_queryActive in Ha.
    rewrite (textMatchNodes_active _ _ _ Ha). unfold textMatchedSet.
    rewrite filter_In, forallb_forall. tauto.
  - intros keys node a b [Hascii Hinside] Hk Hm.
    unfold Sample.stepAndFoo, matchesTerm. simpl.
    rewrite Hk, Hm, (Hascii "foo" eq_refl).
    destruct (Hinside a "foo" b eq_refl) as (a' & b' & ->).
    by rewrite includes_intro.
  - intros keys node Hk. unfold Sample.stepAndFoo, matchesTerm. simpl.
    by rewrite Hk.
Qed.

(** C3. Reserved-kind exclusion: a node of one of the two planning kinds is
    rejected by the first filter whatever the filter says, and is in neither
    output. *)
Theorem reserved_kind_never_shown logs filter keys node :
  reservedKind node →
  keepNode logNodeLevel filter node = false ∧
  ¬ In node (filteredNodes (filterLogs' logs filter keys)) ∧
  ¬ In node (textMatchNodes (filterLogs' logs filter keys)).
Proof.
  intros Hr. apply isPlannedEvent_reserved in Hr.
  assert (Hk : keepNode logNodeLevel filter node = false)
    by (unfold keepNode; by rewrite Hr).
  split; [exact Hk | by apply rejected_not_in_result].
Qed.

(** C5, as amended. Time floor: with a time floor that is set and not zero, a
    node is dropped by the time stage exactly when its timestamp is strictly
    below the floor, so a node at the floor is kept and a node one below it
    is dropped and reaches neither output. Without a floor the stage drops
    nothing. *)
Theorem time_floor_boundary :
  (∀ logs filter keys node t,
     sinceTime filter = Some t → t ≠ 0 →
     (beforeSinceTime filter node = true ↔ timestamp node < t) ∧
     (timestamp node = t → beforeSinceTime filter node = false) ∧
     (timestamp node = t - 1 → beforeSinceTime filter node = true) ∧
     (timestamp node < t →
      ¬ In node (filteredNodes (filterLogs' logs filter keys)) ∧
      ¬ In node (textMatchNodes (filterLogs' logs filter keys)))) ∧
  (∀ filter node, sinceTime filter = None → beforeSinceTime filter node = false).
Proof.
  split.
  - intros logs filter keys node t Hs Ht.
    assert (Hb : beforeSinceTime filter node = true ↔ timestamp node < t).
    { unfold beforeSinceTime. rewrite Hs.
      apply Z.eqb_neq in Ht. rewrite Ht. simpl. apply Z.ltb_lt. }
    split; [exact Hb | split; [| split]].
    + intros Heq. apply not_true_is_false. rewrite Hb. lia.
    + intros Heq. apply Hb. lia.
    + intros Hlt. apply rejected_not_in_result. apply Hb in Hlt.
      unfold keepNode. rewrite Hlt. by repeat case_match.
  - intros filter node Hs. unfold beforeSinceTime. by rewrite Hs.
Qed.

(** C6. Level gate: a node whose level is mapped to [false], or is missing
    from the levels table, is in neither output; and a missing entry behaves
    exactly like an entry set to [false]. *)
Theorem level_gate_missing_is_off :
  (∀ logs filter keys node,
     levels filter !! logNodeLevel node = Some false ∨
     levels filter !! logNodeLevel node = None →
     ¬ In node (filteredNodes (filterLogs' logs filter keys)) ∧
     ¬ In node (textMatchNodes (filterLogs' logs filter keys))) ∧
  (∀ logs filter keys l,
     filterLogs' logs (withLevels filter (delete l (levels filter))) keys =
     filterLogs' logs (withLevels filter (<[l:=false]> (levels filter))) keys).
Proof.
  split.
  - intros logs filter keys node Hl. apply rejected_not_in_result.
    unfold keepNode, levelOff.
    destruct Hl as [-> | ->]; by destruct (isPlannedEvent node).
  - intros logs filter keys l.
    assert (Hs : survivors logs (withLevels filter (delete l (levels filter))) =
                 survivors logs (withLevels filter (<[l:=false]> (levels filter)))).
    { unfold levelTimeNodes. apply filter_ext. intros node.
      unfold keepNode, levelOff, beforeSinceTime. simpl.
      destruct (decide (l = logNodeLevel node)) as [-> | Hne].
      - by rewrite lookup_delete_eq, lookup_insert_eq.
      - by rewrite lookup_delete_ne, lookup_insert_ne. }
    unfold filterLogs. by rewrite Hs.
Qed.

(** C8. Default and unrecognized tokens: a term whose token is none of
    [query], [step], [type] is the substring test of the lower-cased message
    for the lower-cased value. With [toLowerCase] lower-casing ASCII text, a
    term with an empty value passes; on an ASCII message and value the term
    matches exactly when the message contains the value up to the case of
    letters; the value ["failed"] matches the message ["Step Failed"], and
    the value ["zzz"] does not match the message ["hello world"]. *)
Theorem default_token_is_substring_test keys node f :
  defaultToken f →
  matchesTerm' keys node f =
    includes (toLowerCase (message node)) (toLowerCase (value f)) ∧
  (matchesTerm' keys node f = true ↔
   ∃ a b, toLowerCase (message node) = a +:+ toLowerCase (value f) +:+ b) ∧
  (lowersAscii toLowerCase →
   (value f = "" → matchesTerm' keys node f = true) ∧
   (isAscii (message node) = true → isAscii (value f) = true →
    (matchesTerm' keys node f = true ↔
     ∃ a w b, message node = a +:+ w +:+ b ∧ sameIgnoringCase w (value f))) ∧
   (message node = "Step Failed" → value f = "failed" →
    matchesTerm' keys node f = true) ∧
   (message node = "hello world" → value f = "zzz" →
    matchesTerm' keys node f = false)).
Proof.
  intros (Hq & Hs & Ht).
  assert (Hm : matchesTerm' keys node f =
               includes (toLowerCase (message node)) (toLowerCase (value f))).
  { unfold matchesTerm. by repeat case_decide. }
  rewrite Hm. split; [done | split; [apply includes_spec |]].
  intros [Hascii _]. split; [| split; [| split]].
  - intros ->. rewrite (Hascii "" eq_refl). apply includes_empty.
  - intros Hmsg Hval. rewrite (Hascii _ Hmsg), (Hascii _ Hval), includes_spec.
    split.
    + intros (a' & b' & Heq).
      apply asciiLowerCase_app_inv in Heq as (a & rest & Hsplit & _ & Heq).
      apply asciiLowerCase_app_inv in Heq as (w & b & -> & Hw & _).
      exists a, w, b. split; [done |].
      by apply asciiLowerCase_sameIgnoringCase.
    + intros (a & w & b & -> & Hw).
      apply asciiLowerCase_sameIgnoringCase in Hw.
      exists (asciiLowerCase a), (asciiLowerCase b).
      by rewrite !asciiLowerCase_app, Hw.
  - intros -> ->. by rewrite !Hascii.
  - intros -> ->. by rewrite !Hascii.
Qed.

(** C10. A time floor of zero is no floor: the time stage then drops no
    node, whatever its timestamp, and the result is the one obtained
    without a floor. *)
Theorem zero_time_floor_is_no_floor logs filter keys :
  sinceTime filter = Some 0 →
  (∀ node, beforeSinceTime filter node = false) ∧
  filterLogs' logs filter keys =
  filterLogs' logs (withSinceTime filter None) keys.
Proof.
  intros Hs.
  assert (Hb : ∀ node, beforeSinceTime filter node = false)
    by (intros node; unfold beforeSinceTime; by rewrite Hs).
  split; [exact Hb |].
  assert (Hl : survivors logs filter = survivors logs (withSinceTime filter None)).
  { unfold levelTimeNodes. apply filter_ext. intros node.
    unfold keepNode. by rewrite Hb. }
  unfold filterLogs. by rewrite Hl.
Qed.

End Properties.


(** ** Records that lack fields *)

Lemma filterThrowing_throws {A} (p : A → Completion bool) (l : list A) :
  filterThrowing p l = Throws → ∃ x, In x l ∧ p x = Throws.
Proof.
  induction l as [|x l IH]; simpl; [discriminate |].
  destruct (p x) as [b|] eqn:Hp; [| by exists x; auto].
  destruct (filterThrowing p l); [discriminate |].
  intros _. destruct (IH eq_refl) as (y & Hy & Hthrows). exists y. auto.
Qed.

Lemma filterThrowing_In {A} (p : A → Completion bool) (l kept : list A) x :
  filterThrowing p l = Returns kept →
  In x kept → In x l ∧ p x = Returns true.
Proof.
  revert kept. induction l as [|y l IH]; intros kept; simpl.
  - by intros [= <-].
  - destruct (p y) as [b|] eqn:Hp; [| discriminate].
    destruct (filterThrowing p l) as [rest|]; [| discriminate].
    intros [= <-] Hin. destruct b.
    + destruct Hin as [<- | Hin]; [auto |].
      destruct (IH rest eq_refl Hin). auto.
    + destruct (IH rest eq_refl Hin). auto.
Qed.

Lemma filterThrowing_map {A B} (g : A → B) (p : B → Completion bool)
      (q : A → bool) (l : list A) :
  (∀ x, p (g x) = Returns (q x)) →
  filterThrowing p (map g l) = Returns (map g (List.filter q l)).
Proof.
  intros Hp. induction l as [|x l IH]; simpl; [done |].
  rewrite Hp, IH. by destruct (q x).
Qed.

Lemma filter_map_comm {A B} (g : A → B) (p : B → bool) (l : list A) :
  List.filter p (map g l) = map g (List.filter (λ x, p (g x)) l).
Proof.
  induction l as [|x l IH]; simpl; [done |].
  rewrite IH. by destruct (p (g x)).
Qed.

Section MissingFields.

Context `{Countable Level}.
Variable rawNodeLevel : RawLogNode → Level.
Variable eventTypeToDisplayType : string → string.
Variable toLowerCase : string → string.

Implicit Types (filter : LogFilter Level) (keys : list string).
Implicit Types (r : RawLogNode) (f : LogFilterValue) (node : LogNode).

Local Abbreviation filterLogsRaw' :=
  (filterLogsRaw rawNodeLevel eventTypeToDisplayType toLowerCase).
Local Abbreviation evalTerm' := (evalTerm eventTypeToDisplayType toLowerCase).
Local Abbreviation everyTerm' := (everyTerm eventTypeToDisplayType toLowerCase).
Local Abbreviation evalQuery' := (evalQuery eventTypeToDisplayType toLowerCase).

Lemma evalTerm_throws keys r f :
  evalTerm' keys r f = Throws ↔ defaultToken f ∧ rawMessage r = None.
Proof.
  unfold evalTerm, defaultToken.
  destruct (decide (token f = Some "query")); [by intuition |].
  destruct (decide (token f = Some "step")); [by intuition |].
  destruct (decide (token f = Some "type")); [by intuition |].
  destruct (rawMessage r); by intuition.
Qed.

Lemma everyTerm_throws keys r (q : list LogFilterValue) :
  everyTerm' keys r q = Throws → ∃ f, In f q ∧ evalTerm' keys r f = Throws.
Proof.
  induction q as [|f q IH]; simpl; [discriminate |].
  destruct (evalTerm' keys r f) as [[|]|] eqn:Hf.
  - intros Hq. destruct (IH Hq) as (g & Hg & Hthrows). exists g. auto.
  - discriminate.
  - intros _. exists f. auto.
Qed.

Lemma everyTerm_true keys r (q : list LogFilterValue) f :
  everyTerm' keys r q = Returns true → In f q →
  evalTerm' keys r f = Returns true.
Proof.
  induction q as [|g q IH]; simpl; [done |].
  destruct (evalTerm' keys r g) as [[|]|] eqn:Hg; try discriminate.
  intros Hq [<- | Hin]; [done | by apply IH].
Qed.

Lemma evalTerm_ofLogNode keys node f :
  evalTerm' keys (ofLogNode node) f =
  Returns (matchesTerm eventTypeToDisplayType toLowerCase keys node f).
Proof. unfold evalTerm, matchesTerm. simpl. by repeat destruct (decide _). Qed.

Lemma everyTerm_ofLogNode keys node (q : list LogFilterValue) :
  everyTerm' keys (ofLogNode node) q =
  Returns (forallb (matchesTerm eventTypeToDisplayType toLowerCase keys node) q).
Proof.
  induction q as [|f q IH]; simpl; [done |].
  rewrite evalTerm_ofLogNode.
  by destruct (matchesTerm eventTypeToDisplayType toLowerCase keys node f).
Qed.

Lemma evalQuery_ofLogNode filter keys node :
  evalQuery' filter keys (ofLogNode node) =
  Returns (matchesQuery eventTypeToDisplayType toLowerCase filter keys node).
Proof.
  unfold evalQuery, matchesQuery.
  destruct (0 <? Z.of_nat (length (logQuery filter))); [| done].
  apply everyTerm_ofLogNode.
Qed.


End MissingFields.


(** ** The properties on the sample log *)

Lemma textMatch_all_terms_witness :
  (queryActive Sample.andFilter ∧
   In Sample.nodeA (levelTimeNodes Sample.level Sample.logs Sample.andFilter) ∧
   (In Sample.nodeA (textMatchNodes (Sample.run Sample.andFilter [])) ↔
    ∀ f, In f (logQuery Sample.andFilter) →
         matchesTerm Sample.display asciiLowerCase [] Sample.nodeA f = true)) ∧
  forallb (matchesTerm Sample.display asciiLowerCase [] Sample.nodeA) Sample.stepAndFoo = true ∧
  forallb (matchesTerm Sample.display asciiLowerCase [] Sample.nodeB) Sample.stepAndFoo = false.
Proof.
  destruct (textMatch_all_terms Sample.level Sample.display asciiLowerCase) as (Hiff & HA & HB).
  assert (Hq : queryActive Sample.andFilter) by (vm_compute; discriminate).
  assert (Hs : In Sample.nodeA
                  (levelTimeNodes Sample.level Sample.logs Sample.andFilter))
    by (vm_compute; tauto).
  split; [| split].
  - split; [exact Hq | split; [exact Hs |]].
    exact (Hiff Sample.logs Sample.andFilter [] Sample.nodeA Hq Hs).
  - apply (HA [] Sample.nodeA "" "bar");
      [apply asciiLowerCase_lowersAscii | reflexivity | reflexivity].
  - apply (HB [] Sample.nodeB); reflexivity.
Defined.

Lemma reserved_kind_never_shown_witness :
  reservedKind Sample.planned ∧
  keepNode Sample.level Sample.andFilter Sample.planned = false ∧
  ¬ In Sample.planned (filteredNodes (Sample.run Sample.andFilter ["A"])) ∧
  ¬ In Sample.planned (textMatchNodes (Sample.run Sample.andFilter ["A"])).
Proof.
  assert (Hr : reservedKind Sample.planned) by (left; reflexivity).
  split; [exact Hr |].
  exact (reserved_kind_never_shown Sample.level Sample.display asciiLowerCase
           Sample.logs Sample.andFilter ["A"] Sample.planned Hr).
Defined.

(** C5, as stated, fails at a floor of [0]: the floor is set, [early] lies
    strictly below it, and yet the time stage keeps [early], which is shown. *)
Lemma time_floor_zero_keeps_earlier_node :
  sinceTime Sample.zeroFloor = Some 0 ∧
  timestamp Sample.early < 0 ∧
  beforeSinceTime Sample.zeroFloor Sample.early = false ∧
  In Sample.early (filteredNodes (Sample.run Sample.zeroFloor [])).
Proof.
  split; [reflexivity | split; [reflexivity | split; [reflexivity |]]].
  vm_compute. tauto.
Qed.

Lemma time_floor_boundary_witness :
  (sinceTime Sample.floor12 = Some 12 ∧ 12 ≠ 0 ∧
   beforeSinceTime Sample.floor12 Sample.runNode = false ∧
   beforeSinceTime Sample.floor12 Sample.nodeB = true ∧
   ¬ In Sample.nodeB (filteredNodes (Sample.run Sample.floor12 []))) ∧
  (sinceTime Sample.andFilter = None ∧
   beforeSinceTime Sample.andFilter Sample.early = false).
Proof.
  destruct (time_floor_boundary Sample.level Sample.display asciiLowerCase) as (Hset & Hnone).
  assert (Hs : sinceTime Sample.floor12 = Some 12) by reflexivity.
  assert (Hz : 12 ≠ 0) by lia.
  split.
  - destruct (Hset Sample.logs Sample.floor12 [] Sample.runNode 12 Hs Hz)
      as (_ & Hat & _ & _).
    destruct (Hset Sample.logs Sample.floor12 [] Sample.nodeB 12 Hs Hz)
      as (_ & _ & Hbelow & Hout).
    split; [exact Hs | split; [exact Hz |]].
    split; [apply Hat; reflexivity |].
    split; [apply Hbelow; reflexivity |].
    apply Hout. reflexivity.
  - split; [reflexivity |]. apply (Hnone Sample.andFilter Sample.early).
    reflexivity.
Defined.

Lemma level_gate_missing_is_off_witness :
  (levels Sample.infoFilter !! Sample.level Sample.failed = Some false ∨
   levels Sample.infoFilter !! Sample.level Sample.failed = None) ∧
  ¬ In Sample.failed (filteredNodes (Sample.run Sample.infoFilter [])) ∧
  ¬ In Sample.failed (textMatchNodes (Sample.run Sample.infoFilter [])).
Proof.
  assert (Hl : levels Sample.infoFilter !! Sample.level Sample.failed = Some false ∨
               levels Sample.infoFilter !! Sample.level Sample.failed = None)
    by (left; vm_compute; reflexivity).
  split; [exact Hl |].
  exact (proj1 (level_gate_missing_is_off Sample.level Sample.display asciiLowerCase)
           Sample.logs Sample.infoFilter [] Sample.failed Hl).
Defined.



Lemma default_token_is_substring_test_witness :
  defaultToken (Sample.term None "failed") ∧
  lowersAscii asciiLowerCase ∧
  matchesTerm Sample.display asciiLowerCase [] Sample.runNode
    (Sample.term None "failed") = true ∧
  matchesTerm Sample.display asciiLowerCase [] Sample.runNode
    (Sample.term (Some "level") "") = true ∧
  matchesTerm Sample.display asciiLowerCase [] Sample.runNode
    (Sample.term None "FAILURE") = false.
Proof.
  assert (Hd : defaultToken (Sample.term None "failed"))
    by (repeat split; discriminate).
  assert (Hu : defaultToken (Sample.term (Some "level") ""))
    by (repeat split; discriminate).
  assert (He : defaultToken (Sample.term None "FAILURE"))
    by (repeat split; discriminate).
  pose proof asciiLowerCase_lowersAscii as Hl.
  split; [exact Hd | split; [exact Hl | split; [| split]]].
  - destruct (default_token_is_substring_test Sample.display asciiLowerCase []
                Sample.runNode _ Hd) as (_ & _ & Hrest).
    destruct (Hrest Hl) as (_ & _ & Hfailed & _).
    apply Hfailed; reflexivity.
  - destruct (default_token_is_substring_test Sample.display asciiLowerCase []
                Sample.runNode _ Hu) as (_ & _ & Hrest).
    destruct (Hrest Hl) as (Hempty & _).
    apply Hempty; reflexivity.
  - destruct (default_token_is_substring_test Sample.display asciiLowerCase []
                Sample.runNode _ He) as (Heq & _).
    rewrite Heq. reflexivity.
Defined.

Lemma zero_time_floor_is_no_floor_witness :
  sinceTime Sample.zeroFloor = Some 0 ∧
  beforeSinceTime Sample.zeroFloor Sample.early = false ∧
  Sample.run Sample.zeroFloor [] =
  Sample.run (withSinceTime Sample.zeroFloor None) [].
Proof.
  assert (Hs : sinceTime Sample.zeroFloor = Some 0) by reflexivity.
  destruct (zero_time_floor_is_no_floor Sample.level Sample.display asciiLowerCase
              Sample.logs Sample.zeroFloor [] Hs) as (Hb & Heq).
  split; [exact Hs | split; [apply Hb | exact Heq]].
Defined.

(** ** Further facts about lists *)

Lemma filter_sublist_impl {A} (p q : A → bool) (l : list A) :
  (∀ x, In x l → p x = true → q x = true) →
  sublist (List.filter p l) (List.filter q l).
Proof.
  induction l as [|x l IH]; intros Himp; simpl; [constructor |].
  assert (IH' : sublist (List.filter p l) (List.filter q l))
    by (apply IH; intros y Hy; apply Himp; by right).
  destruct (p x) eqn:Hp.
  - rewrite (Himp x (or_introl eq_refl) Hp). by constructor.
  - destruct (q x); [by constructor | done].
Qed.

Lemma filter_all_true {A} (p : A → bool) (l : list A) :
  (∀ x, In x l → p x = true) → List.filter p l = l.
Proof.
  induction l as [|x l IH]; intros Hall; simpl; [done |].
  rewrite (Hall x (or_introl eq_refl)), IH; [done |].
  intros y Hy. apply Hall. by right.
Qed.

Lemma filter_twice {A} (p : A → bool) (l : list A) :
  List.filter p (List.filter p l) = List.filter p l.
Proof. apply filter_all_true. intros x Hx. by apply filter_In in Hx as [_ ?]. Qed.

Lemma filter_swap {A} (p q : A → bool) (l : list A) :
  List.filter p (List.filter q l) = List.filter q (List.filter p l).
Proof.
  induction l as [|x l IH]; simpl; [done |].
  destruct (p x) eqn:Hp, (q x) eqn:Hq; simpl; rewrite ?Hp, ?Hq, IH; done.
Qed.

Lemma forallb_Permutation {A} (p : A → bool) (l k : list A) :
  Permutation l k → forallb p l = forallb p k.
Proof.
  induction 1 as [|x l k _ IH|x y l|l k m _ IH1 _ IH2]; simpl.
  - done.
  - by rewrite IH.
  - by destruct (p x), (p y).
  - by rewrite IH1.
Qed.

(** ** Further properties of [filterLogs] *)

Section Composition.

Context `{Countable Level}.
Variable logNodeLevel : LogNode → Level.
Variable eventTypeToDisplayType : string → string.
Variable toLowerCase : string → string.

Implicit Types (logs : LogsProviderLogs) (filter : LogFilter Level).
Implicit Types (keys : list string) (node : LogNode) (f : LogFilterValue).
Implicit Types (nodes : list LogNode).

Local Abbreviation filterLogs' :=
  (filterLogs logNodeLevel eventTypeToDisplayType toLowerCase).
Local Abbreviation matchesTerm' :=
  (matchesTerm eventTypeToDisplayType toLowerCase).
Local Abbreviation matchesQuery' :=
  (matchesQuery eventTypeToDisplayType toLowerCase).
Local Abbreviation keepNode' := (keepNode logNodeLevel).

Lemma beforeSinceTime_false filter node :
  beforeSinceTime filter node = false ↔ atOrAfterFloor filter node.
Proof.
  unfold beforeSinceTime, atOrAfterFloor.
  destruct (sinceTime filter) as [t|]; [| split; [intros _ t [=] | done]].
  destruct (Z.eqb_spec t 0) as [-> | Hne]; simpl.
  - split; [intros _ t [= <-] Hz; by destruct Hz | done].
  - rewrite Z.ltb_ge. split.
    + intros Hle t' [= <-] _. exact Hle.
    + intros Hf. by apply Hf.
Qed.

Lemma keepNode_iff filter node :
  keepNode' filter node = true ↔
  ¬ reservedKind node ∧
  levels filter !! logNodeLevel node = Some true ∧
  atOrAfterFloor filter node.
Proof.
  rewrite keepNode_stages, levelOff_false, beforeSinceTime_false.
  rewrite <- isPlannedEvent_reserved, not_true_iff_false. tauto.
Qed.

Lemma filterLogs_nodes logs filter keys :
  textMatchNodes (filterLogs' logs filter keys) =
    (if hasTextFilter filter
     then List.filter (matchesQuery' filter keys)
            (List.filter (keepNode' filter) (allNodes logs))
     else []) ∧
  filteredNodes (filterLogs' logs filter keys) =
    (if hasTextFilter filter && hideNonMatches filter
     then List.filter (matchesQuery' filter keys)
            (List.filter (keepNode' filter) (allNodes logs))
     else List.filter (keepNode' filter) (allNodes logs)).
Proof.
  unfold filterLogs, levelTimeNodes. simpl.
  by destruct (hasTextFilter filter), (hideNonMatches filter).
Qed.

Lemma filterLogs_eq r1 r2 :
  filteredNodes r1 = filteredNodes r2 →
  textMatchNodes r1 = textMatchNodes r2 → r1 = r2.
Proof. destruct r1, r2. simpl. by intros -> ->. Qed.

(** X1. Exactly which nodes are shown: a node is in [filteredNodes] when it is
    an input node of no planned kind, whose level is switched on, not before
    a non-zero time floor and, if a query is active and non-matches are
    hidden, matched by every term; it is in [textMatchNodes] when moreover a
    query is active and every term matches it. *)
Theorem filterLogs_membership logs filter keys node :
  (In node (filteredNodes (filterLogs' logs filter keys)) ↔
   In node (allNodes logs) ∧ ¬ reservedKind node ∧
   levels filter !! logNodeLevel node = Some true ∧
   atOrAfterFloor filter node ∧
   (queryActive filter → hideNonMatches filter = true →
    ∀ f, In f (logQuery filter) → matchesTerm' keys node f = true)) ∧
  (In node (textMatchNodes (filterLogs' logs filter keys)) ↔
   In node (allNodes logs) ∧ ¬ reservedKind node ∧
   levels filter !! logNodeLevel node = Some true ∧
   atOrAfterFloor filter node ∧ queryActive filter ∧
   ∀ f, In f (logQuery filter) → matchesTerm' keys node f = true).
Proof.
  destruct (filterLogs_nodes logs filter keys) as [-> ->].
  pose proof (hasTextFilter_queryActive filter) as Hq.
  pose proof (keepNode_iff filter node) as Hk.
  destruct (hasTextFilter filter) eqn:Ha; simpl.
  - assert (Hm : matchesQuery' filter keys node = true ↔
                 ∀ f, In f (logQuery filter) → matchesTerm' keys node f = true).
    { rewrite (matchesQuery_active eventTypeToDisplayType toLowerCase _ _ _ Ha).
      apply forallb_forall. }
    destruct (hideNonMatches filter); rewrite !filter_In;
      intuition (auto; try congruence).
  - rewrite filter_In. simpl. split; [| intuition congruence].
    destruct (hideNonMatches filter); intuition congruence.
Qed.

(** X2. Batches: filtering two batches one after the other gives the results
    of the two batches, one after the other. *)
Theorem filterLogs_app nodes1 nodes2 filter keys :
  filteredNodes (filterLogs' (batch (nodes1 ++ nodes2)%list) filter keys) =
    (filteredNodes (filterLogs' (batch nodes1) filter keys) ++
     filteredNodes (filterLogs' (batch nodes2) filter keys))%list ∧
  textMatchNodes (filterLogs' (batch (nodes1 ++ nodes2)%list) filter keys) =
    (textMatchNodes (filterLogs' (batch nodes1) filter keys) ++
     textMatchNodes (filterLogs' (batch nodes2) filter keys))%list.
Proof.
  destruct (filterLogs_nodes (batch (nodes1 ++ nodes2)%list) filter keys)
    as [-> ->].
  destruct (filterLogs_nodes (batch nodes1) filter keys) as [-> ->].
  destruct (filterLogs_nodes (batch nodes2) filter keys) as [-> ->].
  simpl. rewrite !List.filter_app.
  by destruct (hasTextFilter filter), (hideNonMatches filter).
Qed.

(** X3. Filtering is idempotent: filtering the shown nodes again with the
    same filter returns the same two lists. *)
Theorem filterLogs_idempotent logs filter keys :
  filterLogs' (batch (filteredNodes (filterLogs' logs filter keys))) filter keys =
  filterLogs' logs filter keys.
Proof.
  apply filterLogs_eq.
  - destruct (filterLogs_nodes
                (batch (filteredNodes (filterLogs' logs filter keys)))
                filter keys) as [_ ->].
    destruct (filterLogs_nodes logs filter keys) as [_ ->]. simpl.
    destruct (hasTextFilter filter && hideNonMatches filter).
    + by rewrite (filter_swap (keepNode' filter)), filter_twice, filter_twice.
    + apply filter_twice.
  - destruct (filterLogs_nodes
                (batch (filteredNodes (filterLogs' logs filter keys)))
                filter keys) as [-> _].
    destruct (filterLogs_nodes logs filter keys) as [-> ->]. simpl.
    destruct (hasTextFilter filter); [| done].
    destruct (hideNonMatches filter); simpl.
    + by rewrite (filter_swap (keepNode' filter)), filter_twice, filter_twice.
    + by rewrite filter_twice.
Qed.

(** X4. Filtering commutes with any selection of the input: selecting input
    nodes by a predicate before filtering gives the same as applying the
    selection to both outputs. *)
Theorem filterLogs_preselect (p : LogNode → bool) logs filter keys :
  filteredNodes
    (filterLogs' (batch (List.filter p (allNodes logs))) filter keys) =
    List.filter p (filteredNodes (filterLogs' logs filter keys)) ∧
  textMatchNodes
    (filterLogs' (batch (List.filter p (allNodes logs))) filter keys) =
    List.filter p (textMatchNodes (filterLogs' logs filter keys)).
Proof.
  destruct (filterLogs_nodes (batch (List.filter p (allNodes logs))) filter keys)
    as [-> ->].
  destruct (filterLogs_nodes logs filter keys) as [-> ->]. simpl.
  assert (Hk : List.filter (keepNode' filter) (List.filter p (allNodes logs)) =
               List.filter p (List.filter (keepNode' filter) (allNodes logs)))
    by apply filter_swap.
  rewrite Hk, (filter_swap (matchesQuery' filter keys) p).
  by destruct (hasTextFilter filter), (hideNonMatches filter).
Qed.

(** *** Comparing two filters on the same log *)

Lemma filterLogs_sublist logs filter1 filter2 keys1 keys2 :
  hasTextFilter filter1 = hasTextFilter filter2 →
  hideNonMatches filter1 = hideNonMatches filter2 →
  (∀ node, keepNode' filter1 node = true → keepNode' filter2 node = true) →
  (∀ node, matchesQuery' filter1 keys1 node = true →
           matchesQuery' filter2 keys2 node = true) →
  sublist (filteredNodes (filterLogs' logs filter1 keys1))
          (filteredNodes (filterLogs' logs filter2 keys2)) ∧
  sublist (textMatchNodes (filterLogs' logs filter1 keys1))
          (textMatchNodes (filterLogs' logs filter2 keys2)).
Proof.
  intros Ha Hh Hk Hm.
  destruct (filterLogs_nodes logs filter1 keys1) as [-> ->].
  destruct (filterLogs_nodes logs filter2 keys2) as [-> ->].
  rewrite Ha, Hh.
  assert (Hs : sublist (List.filter (keepNode' filter1) (allNodes logs))
                       (List.filter (keepNode' filter2) (allNodes logs)))
    by (apply filter_sublist_impl; auto).
  assert (Ht : sublist
                 (List.filter (matchesQuery' filter1 keys1)
                    (List.filter (keepNode' filter1) (allNodes logs)))
                 (List.filter (matchesQuery' filter2 keys2)
                    (List.filter (keepNode' filter2) (allNodes logs)))).
  { etrans; [apply filter_sublist_mono, Hs |].
    apply filter_sublist_impl; auto. }
  by destruct (hasTextFilter filter2), (hideNonMatches filter2).
Qed.

Lemma keepNode_weaken filter1 filter2 node :
  (levels filter1 !! logNodeLevel node = Some true →
   levels filter2 !! logNodeLevel node = Some true) →
  (atOrAfterFloor filter1 node → atOrAfterFloor filter2 node) →
  keepNode' filter1 node = true → keepNode' filter2 node = true.
Proof. rewrite !keepNode_iff. tauto. Qed.

Lemma includesKey_In keys k : includesKey keys k = true ↔ In k keys.
Proof.
  unfold includesKey. rewrite existsb_exists. split.
  - intros (k' & Hin & Heq). apply String.eqb_eq in Heq. by subst.
  - intros Hin. exists k. split; [done | apply String.eqb_refl].
Qed.

Lemma truthy_Some o : truthy o = true ↔ ∃ s, o = Some s ∧ s ≠ "".
Proof.
  destruct o as [[|c s]|]; simpl; split; try done.
  - by intros (s & [= <-] & Hne).
  - intros _. by eexists.
  - by intros (s & [=] & _).
Qed.

(** X5. Raising the time floor only removes nodes: with a floor [t2], not
    zero, both outputs are sub-sequences of the outputs with any floor
    [t1 ≤ t2]. *)
Theorem filterLogs_later_floor logs filter keys t1 t2 :
  t1 ≤ t2 → t2 ≠ 0 →
  sublist
    (filteredNodes (filterLogs' logs (withSinceTime filter (Some t2)) keys))
    (filteredNodes (filterLogs' logs (withSinceTime filter (Some t1)) keys)) ∧
  sublist
    (textMatchNodes (filterLogs' logs (withSinceTime filter (Some t2)) keys))
    (textMatchNodes (filterLogs' logs (withSinceTime filter (Some t1)) keys)).
Proof.
  intros Hle Hne. apply filterLogs_sublist; [done | done | | done].
  intros node. apply keepNode_weaken; [done |].
  unfold atOrAfterFloor. simpl. intros H2 t [= <-] _.
  specialize (H2 t2 eq_refl Hne). lia.
Qed.

(** X6. Switching levels on only adds nodes: if every level that is on in
    [m1] is on in [m2], both outputs under [m1] are sub-sequences of the
    outputs under [m2]. *)
Theorem filterLogs_more_levels logs filter keys (m1 m2 : gmap Level bool) :
  (∀ l, m1 !! l = Some true → m2 !! l = Some true) →
  sublist (filteredNodes (filterLogs' logs (withLevels filter m1) keys))
          (filteredNodes (filterLogs' logs (withLevels filter m2) keys)) ∧
  sublist (textMatchNodes (filterLogs' logs (withLevels filter m1) keys))
          (textMatchNodes (filterLogs' logs (withLevels filter m2) keys)).
Proof.
  intros Hm. apply filterLogs_sublist; [done | done | | done].
  intros node. apply keepNode_weaken; [apply Hm | done].
Qed.

(** X7. Refining an active query only removes nodes: appending terms to an
    active query makes both outputs sub-sequences of the former ones. *)
Theorem filterLogs_more_terms logs filter keys (more : list LogFilterValue) :
  queryActive filter →
  sublist
    (filteredNodes
       (filterLogs' logs (withLogQuery filter (logQuery filter ++ more)%list) keys))
    (filteredNodes (filterLogs' logs filter keys)) ∧
  sublist
    (textMatchNodes
       (filterLogs' logs (withLogQuery filter (logQuery filter ++ more)%list) keys))
    (textMatchNodes (filterLogs' logs filter keys)).
Proof.
  intros Hq. apply hasTextFilter_queryActive in Hq.
  assert (Hq' : hasTextFilter
                  (withLogQuery filter (logQuery filter ++ more)%list) = true).
  { unfold hasTextFilter in *. simpl. by destruct (logQuery filter). }
  apply filterLogs_sublist; [congruence | done | done |].
  intros node.
  rewrite (matchesQuery_active eventTypeToDisplayType toLowerCase _ _ _ Hq).
  rewrite (matchesQuery_active eventTypeToDisplayType toLowerCase _ _ _ Hq'). simpl.
  rewrite forallb_app, andb_true_iff. tauto.
Qed.

(** X8. The order of the terms only matters through which term is first: two
    active queries with the same terms in another order give the same
    result. *)
Theorem filterLogs_terms_reordered logs filter keys (q : list LogFilterValue) :
  Permutation (logQuery filter) q →
  queryActive filter → queryActive (withLogQuery filter q) →
  filterLogs' logs (withLogQuery filter q) keys = filterLogs' logs filter keys.
Proof.
  intros Hp Hq Hq'.
  apply hasTextFilter_queryActive in Hq, Hq'.
  assert (Hm : ∀ node, matchesQuery' (withLogQuery filter q) keys node =
                       matchesQuery' filter keys node).
  { intros node.
    rewrite (matchesQuery_active eventTypeToDisplayType toLowerCase _ _ _ Hq).
    rewrite (matchesQuery_active eventTypeToDisplayType toLowerCase _ _ _ Hq'). simpl.
    symmetry. by apply forallb_Permutation. }
  apply filterLogs_eq.
  - destruct (filterLogs_nodes logs (withLogQuery filter q) keys) as [_ ->].
    destruct (filterLogs_nodes logs filter keys) as [_ ->].
    rewrite Hq, Hq'. simpl.
    destruct (hideNonMatches filter); [| done].
    apply filter_ext, Hm.
  - destruct (filterLogs_nodes logs (withLogQuery filter q) keys) as [-> _].
    destruct (filterLogs_nodes logs filter keys) as [-> _].
    rewrite Hq, Hq'. apply filter_ext, Hm.
Qed.

(** X9. The recognized tokens. A scope term ([query]) matches exactly the
    nodes whose step key is one of the relevant keys and not empty, whatever
    the term's value; a [step] term exactly the nodes whose step key is the
    term's value and not empty; a [type] term exactly the nodes whose event
    type is not empty and is displayed as the term's value. *)
Theorem recognized_tokens keys node f :
  (token f = Some "query" →
   (matchesTerm' keys node f = true ↔
    ∃ k, stepKey node = Some k ∧ k ≠ "" ∧ In k keys)) ∧
  (token f = Some "step" →
   (matchesTerm' keys node f = true ↔
    stepKey node = Some (value f) ∧ value f ≠ "")) ∧
  (token f = Some "type" →
   (matchesTerm' keys node f = true ↔
    ∃ e, eventType node = Some e ∧ e ≠ "" ∧
         value f = eventTypeToDisplayType e)).
Proof.
  unfold matchesTerm. split; [| split]; intros Ht; rewrite Ht.
  - destruct (decide (Some "query" = Some "query")); [| done].
    rewrite andb_true_iff, truthy_Some. split.
    + intros [(k & Hk & Hne) Hin]. rewrite Hk in Hin.
      apply includesKey_In in Hin. eauto.
    + intros (k & Hk & Hne & Hin). rewrite Hk.
      split; [eauto | by apply includesKey_In].
  - destruct (decide (Some "step" = Some "query")); [done |].
    destruct (decide (Some "step" = Some "step")); [| done].
    rewrite andb_true_iff, truthy_Some, bool_decide_eq_true. split.
    + intros [(k & Hk & Hne) Heq]. split; [done | congruence].
    + intros [Hk Hne]. eauto.
  - destruct (decide (Some "type" = Some "query")); [done |].
    destruct (decide (Some "type" = Some "step")); [done |].
    destruct (decide (Some "type" = Some "type")); [| done].
    rewrite andb_true_iff, truthy_Some. split.
    + intros [(ev & He & Hne) Heq]. rewrite He in Heq.
      apply String.eqb_eq in Heq. eauto.
    + intros (ev & He & Hne & Heq). rewrite He.
      split; [eauto | by apply String.eqb_eq].
Qed.

(** X10. Widening the scope only adds matches: if every relevant step key of
    [keys1] is in [keys2], both outputs for [keys1] are sub-sequences of the
    outputs for [keys2]. *)
Theorem filterLogs_more_keys logs filter keys1 keys2 :
  (∀ k, In k keys1 → In k keys2) →
  sublist (filteredNodes (filterLogs' logs filter keys1))
          (filteredNodes (filterLogs' logs filter keys2)) ∧
  sublist (textMatchNodes (filterLogs' logs filter keys1))
          (textMatchNodes (filterLogs' logs filter keys2)).
Proof.
  intros Hk. apply filterLogs_sublist; [done | done | done |].
  intros node. unfold matchesQuery. rewrite !andb_true_iff.
  intros [Hlen Hall]. split; [done |].
  rewrite forallb_forall in *. intros f Hf. specialize (Hall f Hf).
  revert Hall. unfold matchesTerm.
  destruct (decide (token f = Some "query")); [| done].
  rewrite !andb_true_iff. intros [Ht Hin]. split; [done |].
  destruct (stepKey node) as [k|]; [| done].
  apply includesKey_In, Hk. by apply includesKey_In.
Qed.

(** X11. A filter that excludes nothing shows the input unchanged: if no
    input node is of a planned kind, every input node's level is on, the
    time floor is absent or zero, and no query is active or non-matches are
    shown, then [filteredNodes] is the input. *)
Theorem filterLogs_permissive logs filter keys :
  (∀ node, In node (allNodes logs) →
           ¬ reservedKind node ∧
           levels filter !! logNodeLevel node = Some true) →
  sinceTime filter = None ∨ sinceTime filter = Some 0 →
  ¬ queryActive filter ∨ hideNonMatches filter = false →
  filteredNodes (filterLogs' logs filter keys) = allNodes logs.
Proof.
  intros Hall Ht Hq.
  destruct (filterLogs_nodes logs filter keys) as [_ ->].
  assert (Hb : hasTextFilter filter && hideNonMatches filter = false).
  { destruct Hq as [Hq | ->]; [| apply andb_false_r].
    rewrite <- hasTextFilter_queryActive in Hq.
    apply not_true_is_false in Hq. by rewrite Hq. }
  rewrite Hb. apply filter_all_true. intros node Hin.
  apply keepNode_iff. destruct (Hall node Hin) as [Hr Hl].
  split; [done | split; [done |]].
  intros t Hs Hne. destruct Ht as [Ht | Ht]; congruence.
Qed.

(** X12. On ASCII values the free-text test ignores the case of letters: a
    default term whose value is ASCII matches every node whose message
    contains, anywhere and among any other characters, a text equal to the
    value up to the case of letters. *)
Theorem default_token_any_case keys node f (a w b : string) :
  lowersAscii toLowerCase →
  defaultToken f →
  isAscii (value f) = true →
  sameIgnoringCase w (value f) →
  message node = a +:+ w +:+ b →
  matchesTerm' keys node f = true.
Proof.
  intros [Hascii Hinside] (Hq & Hs & Ht) Hval Hw Hm.
  assert (Hwa : isAscii w = true) by (by eapply sameIgnoringCase_isAscii).
  unfold matchesTerm. repeat case_decide; try done.
  rewrite Hm, (Hascii _ Hval).
  destruct (Hinside a w b Hwa) as (a' & b' & ->).
  apply asciiLowerCase_sameIgnoringCase in Hw. rewrite Hw.
  apply includes_intro.
Qed.

End Composition.

(** ** Properties of the instance configuration page *)

Section ConfigSections.

Import InstanceConfig.

Implicit Types (s info hash section : string) (c : ascii).
Implicit Types (isSep : ascii → string → bool).

Lemma splitWhere_cons isSep s :
  ∃ piece more, splitWhere isSep s = piece :: more.
Proof.
  destruct s as [|c rest]; simpl; [by eexists _, _ |].
  destruct (isSep c rest); [by eexists _, _ |].
  destruct (splitWhere isSep rest); by eexists _, _.
Qed.

Lemma join_cons_char sep c piece (more : list string) :
  join sep (String c piece :: more) = String c (join sep (piece :: more)).
Proof. by destruct more. Qed.

Lemma splitWhere_join isSep sep s :
  (∀ c rest, isSep c rest = true → c = sep) →
  join sep (splitWhere isSep s) = s.
Proof.
  intros Hsep. induction s as [|c rest IH]; simpl; [done |].
  destruct (splitWhere_cons isSep rest) as (piece & more & Hsplit).
  destruct (isSep c rest) eqn:Hc.
  - rewrite (Hsep _ _ Hc), Hsplit. rewrite Hsplit in IH.
    by rewrite <- IH.
  - rewrite Hsplit. rewrite Hsplit in IH. by rewrite join_cons_char, IH.
Qed.

Lemma topLevelBreak_newline c rest : topLevelBreak c rest = true → c = newline.
Proof.
  unfold topLevelBreak. rewrite andb_true_iff. intros [Hc _].
  by apply Ascii.eqb_eq.
Qed.

Lemma wordChar_not_break c rest : isWordChar c = true → topLevelBreak c rest = false.
Proof.
  intros Hw. unfold topLevelBreak.
  destruct (Ascii.eqb_spec c newline) as [-> | _]; [discriminate | done].
Qed.

Lemma wordChar_not_colon c rest : isWordChar c = true → isColon c rest = false.
Proof.
  intros Hw. unfold isColon.
  destruct (Ascii.eqb_spec c colon) as [-> | _]; [discriminate | done].
Qed.

(** The first piece of a split starts like the text that is split. *)
Lemma splitWhere_hd_wordChar isSep s :
  startsWithWordChar (hd EmptyString (splitWhere isSep s)) = true →
  startsWithWordChar s = true.
Proof.
  destruct s as [|c rest]; simpl; [done |].
  destruct (isSep c rest); simpl; [done |].
  by destruct (splitWhere isSep rest).
Qed.

Lemma splitWhere_keeps_first isSep c rest :
  isSep c rest = false →
  ∃ piece more, splitWhere isSep (String c rest) = String c piece :: more.
Proof.
  intros Hc. simpl. rewrite Hc.
  destruct (splitWhere isSep rest); by eexists _, _.
Qed.

Lemma sectionId_cons c rest :
  sectionId (String c rest) =
  if Ascii.eqb c colon then EmptyString else String c (sectionId rest).
Proof.
  unfold sectionId. simpl. unfold isColon at 1.
  destruct (Ascii.eqb c colon); [done |].
  by destruct (splitWhere_cons isColon rest) as (piece & more & ->).
Qed.

Lemma sectionId_wordChar section :
  startsWithWordChar section = true → sectionId section ≠ "".
Proof.
  destruct section as [|c rest]; simpl; [done |]. intros Hw.
  destruct (splitWhere_keeps_first isColon c rest (wordChar_not_colon c rest Hw))
    as (piece & more & Hsplit).
  unfold sectionId. by rewrite Hsplit.
Qed.

Lemma later_sections_wordChar s :
  Forall (λ section, startsWithWordChar section = true)
         (tl (splitSections s)).
Proof.
  unfold splitSections. induction s as [|c rest IH]; simpl; [constructor |].
  destruct (topLevelBreak c rest) eqn:Hc; simpl.
  - unfold topLevelBreak in Hc. apply andb_true_iff in Hc as [_ Hd].
    destruct rest as [|d rest']; [done |]. simpl in Hd.
    destruct (splitWhere_keeps_first topLevelBreak d rest'
                (wordChar_not_break d rest' Hd)) as (piece & more & Hsplit).
    rewrite Hsplit in *. by constructor.
  - by destruct (splitWhere topLevelBreak rest).
Qed.

(** X13. Nothing of the configuration text is lost or reordered: there is at
    least one section, and the texts shown in the boxes of the page, joined
    by newlines, are the instance information. *)
Theorem sections_rejoin info hash :
  renderSections info hash ≠ [] ∧
  join newline (map sectionValue (renderSections info hash)) = info.
Proof.
  unfold renderSections, splitSections. split.
  - destruct (splitWhere_cons topLevelBreak info) as (piece & more & ->). done.
  - rewrite map_map. simpl. rewrite map_id.
    apply splitWhere_join, topLevelBreak_newline.
Qed.

(** X14. Every section but the first starts with a word character, the first
    character of a top-level key, and so has a non-empty id. *)
Theorem later_sections_start_with_key info section :
  In section (tl (splitSections info)) →
  startsWithWordChar section = true ∧ sectionId section ≠ "".
Proof.
  intros Hin.
  pose proof (later_sections_wordChar info) as Hall.
  rewrite Forall_forall in Hall.
  assert (Hw : startsWithWordChar section = true)
    by (apply Hall; by apply list_elem_of_In).
  split; [exact Hw | by apply sectionId_wordChar].
Qed.

(** X15. The split is maximal: inside a section no newline is followed by a
    word character, so a section never holds a second top-level key. *)
Theorem sections_hold_one_key info section (a b : string) :
  In section (splitSections info) →
  section = a +:+ String newline b →
  startsWithWordChar b = false.
Proof.
  unfold splitSections. revert section a.
  induction info as [|c rest IH]; intros section a; simpl.
  - intros [<- | []] Heq. by destruct a.
  - destruct (topLevelBreak c rest) eqn:Hc.
    + intros [<- | Hin] Heq; [by destruct a | by eapply IH].
    + pose proof (splitWhere_hd_wordChar topLevelBreak rest) as Hhd.
      destruct (splitWhere_cons topLevelBreak rest) as (piece & more & Hsplit).
      rewrite Hsplit in *. simpl in Hhd. intros [<- | Hin] Heq.
      * destruct a as [|c' a'].
        -- change (String c piece = String newline b) in Heq.
           injection Heq as -> ->.
           unfold topLevelBreak in Hc. rewrite Ascii.eqb_refl in Hc.
           simpl in Hc. apply not_true_is_false. intros Hb.
           rewrite (Hhd Hb) in Hc. discriminate.
        -- change (String c piece = String c' (a' +:+ String newline b)) in Heq.
           injection Heq as -> ->.
           eapply (IH _ a'); [by left | done].
      * eapply IH; [by right | done].
Qed.

(** X16. The id of a section is the text before its first colon: the section
    is its id followed by nothing or by a colon and the rest, and the id
    holds no colon. *)
Theorem sectionId_before_colon section :
  (∃ rest, section = sectionId section +:+ rest ∧
           (rest = "" ∨ ∃ r, rest = String colon r)) ∧
  ¬ In colon (list_ascii_of_string (sectionId section)).
Proof.
  induction section as [|c rest IH].
  - split; [exists ""; auto | simpl; tauto].
  - rewrite sectionId_cons.
    destruct (Ascii.eqb_spec c colon) as [-> | Hne].
    + split; [| simpl; tauto]. exists (String colon rest). eauto.
    + destruct IH as [(tail & Heq & Htail) Hno]. split.
      * exists tail. split; [| done].
        change (String c rest = String c (sectionId rest +:+ tail)).
        by rewrite <- Heq.
      * simpl. intros [? | ?]; [done | tauto].
Qed.

(** X17. Highlight and scroll agree: a box is highlighted only if the scroll
    effect, given the same hash, looks up that box's id; for a hash that
    starts with [#] the converse holds; and all highlighted boxes have the
    same id. *)
Theorem highlight_matches_scroll info hash (box : SectionBox) :
  In box (renderSections info hash) →
  (highlighted box = true → scrollTarget hash = Some (boxId box)) ∧
  (∀ rest, hash = String "#" rest →
           scrollTarget hash = Some (boxId box) → highlighted box = true) ∧
  (∀ other, In other (renderSections info hash) →
            highlighted box = true → highlighted other = true →
            boxId other = boxId box).
Proof.
  unfold renderSections. rewrite in_map_iff.
  intros (section & <- & _). simpl. repeat split.
  - rewrite String.eqb_eq. by intros ->.
  - intros rest -> [= ->]. apply String.eqb_refl.
  - intros other. rewrite in_map_iff. intros (section' & <- & _). simpl.
    rewrite !String.eqb_eq. unfold hashForSection. congruence.
Qed.

End ConfigSections.


(** ** The further properties on sample data *)

Lemma filterLogs_later_floor_witness :
  10 ≤ 12 ∧ 12 ≠ 0 ∧
  sublist
    (filteredNodes (Sample.run (withSinceTime Sample.andFilter (Some 12)) []))
    (filteredNodes (Sample.run (withSinceTime Sample.andFilter (Some 10)) [])) ∧
  sublist
    (textMatchNodes (Sample.run (withSinceTime Sample.andFilter (Some 12)) []))
    (textMatchNodes (Sample.run (withSinceTime Sample.andFilter (Some 10)) [])).
Proof.
  assert (Hle : 10 ≤ 12) by lia.
  assert (Hne : 12 ≠ 0) by lia.
  split; [exact Hle | split; [exact Hne |]].
  exact (filterLogs_later_floor Sample.level Sample.display asciiLowerCase Sample.logs
           Sample.andFilter [] 10 12 Hle Hne).
Defined.

Lemma filterLogs_more_levels_witness :
  (∀ l, Sample.infoOnly !! l = Some true → Sample.allOn !! l = Some true) ∧
  sublist
    (filteredNodes (Sample.run (withLevels Sample.andFilter Sample.infoOnly) []))
    (filteredNodes (Sample.run (withLevels Sample.andFilter Sample.allOn) [])) ∧
  sublist
    (textMatchNodes (Sample.run (withLevels Sample.andFilter Sample.infoOnly) []))
    (textMatchNodes (Sample.run (withLevels Sample.andFilter Sample.allOn) [])).
Proof.
  assert (Hm : ∀ l, Sample.infoOnly !! l = Some true →
                    Sample.allOn !! l = Some true).
  { intros l.
    destruct (decide (l = "INFO")) as [-> | Hinfo]; [by vm_compute |].
    destruct (decide (l = "ERROR")) as [-> | Herror]; [by vm_compute |].
    unfold Sample.infoOnly.
    rewrite lookup_insert_ne, lookup_singleton_ne by done. discriminate. }
  split; [exact Hm |].
  exact (filterLogs_more_levels Sample.level Sample.display asciiLowerCase Sample.logs
           Sample.andFilter [] Sample.infoOnly Sample.allOn Hm).
Defined.

Lemma filterLogs_more_terms_witness :
  queryActive Sample.andFilter ∧
  sublist
    (filteredNodes
       (Sample.run (withLogQuery Sample.andFilter
                      (logQuery Sample.andFilter ++ Demo.fooQuery)%list) []))
    (filteredNodes (Sample.run Sample.andFilter [])) ∧
  sublist
    (textMatchNodes
       (Sample.run (withLogQuery Sample.andFilter
                      (logQuery Sample.andFilter ++ Demo.fooQuery)%list) []))
    (textMatchNodes (Sample.run Sample.andFilter [])).
Proof.
  assert (Hq : queryActive Sample.andFilter) by (vm_compute; discriminate).
  split; [exact Hq |].
  exact (filterLogs_more_terms Sample.level Sample.display asciiLowerCase Sample.logs
           Sample.andFilter [] Demo.fooQuery Hq).
Defined.

Lemma filterLogs_terms_reordered_witness :
  Permutation (logQuery Sample.andFilter) Demo.fooThenStep ∧
  queryActive Sample.andFilter ∧
  queryActive (withLogQuery Sample.andFilter Demo.fooThenStep) ∧
  Sample.run (withLogQuery Sample.andFilter Demo.fooThenStep) [] =
  Sample.run Sample.andFilter [].
Proof.
  assert (Hp : Permutation (logQuery Sample.andFilter) Demo.fooThenStep)
    by apply perm_swap.
  assert (Hq : queryActive Sample.andFilter) by (vm_compute; discriminate).
  assert (Hq' : queryActive (withLogQuery Sample.andFilter Demo.fooThenStep))
    by (vm_compute; discriminate).
  split; [exact Hp | split; [exact Hq | split; [exact Hq' |]]].
  exact (filterLogs_terms_reordered Sample.level Sample.display asciiLowerCase Sample.logs
           Sample.andFilter [] Demo.fooThenStep Hp Hq Hq').
Defined.

Lemma recognized_tokens_witness :
  (token Demo.scopeTerm = Some "query" ∧
   (matchesTerm Sample.display asciiLowerCase ["A"; ""] Demo.typed Demo.scopeTerm = true ↔
    ∃ k, stepKey Demo.typed = Some k ∧ k ≠ "" ∧ In k ["A"; ""])) ∧
  (token Demo.stepTerm = Some "step" ∧
   (matchesTerm Sample.display asciiLowerCase [] Sample.nodeA Demo.stepTerm = true ↔
    stepKey Sample.nodeA = Some (value Demo.stepTerm) ∧
    value Demo.stepTerm ≠ "")) ∧
  (token Demo.typeTerm = Some "type" ∧
   (matchesTerm Sample.display asciiLowerCase [] Demo.typed Demo.typeTerm = true ↔
    ∃ e, eventType Demo.typed = Some e ∧ e ≠ "" ∧
         value Demo.typeTerm = Sample.display e)).
Proof.
  split; [| split]; (split; [reflexivity |]).
  - apply (recognized_tokens Sample.display asciiLowerCase ["A"; ""] Demo.typed Demo.scopeTerm).
    reflexivity.
  - apply (recognized_tokens Sample.display asciiLowerCase [] Sample.nodeA Demo.stepTerm).
    reflexivity.
  - apply (recognized_tokens Sample.display asciiLowerCase [] Demo.typed Demo.typeTerm).
    reflexivity.
Defined.

Lemma filterLogs_more_keys_witness :
  (∀ k, In k ["A"] → In k ["B"; "A"]) ∧
  sublist (filteredNodes (Sample.run Demo.scopeFilter ["A"]))
          (filteredNodes (Sample.run Demo.scopeFilter ["B"; "A"])) ∧
  sublist (textMatchNodes (Sample.run Demo.scopeFilter ["A"]))
          (textMatchNodes (Sample.run Demo.scopeFilter ["B"; "A"])).
Proof.
  assert (Hk : ∀ k, In k ["A"] → In k ["B"; "A"]) by (simpl; tauto).
  split; [exact Hk |].
  exact (filterLogs_more_keys Sample.level Sample.display asciiLowerCase Sample.logs
           Demo.scopeFilter ["A"] ["B"; "A"] Hk).
Defined.

Lemma filterLogs_permissive_witness :
  (∀ node, In node (allNodes (batch Demo.page2)) →
           ¬ reservedKind node ∧
           levels Demo.plain !! Sample.level node = Some true) ∧
  (sinceTime Demo.plain = None ∨ sinceTime Demo.plain = Some 0) ∧
  (¬ queryActive Demo.plain ∨ hideNonMatches Demo.plain = false) ∧
  filteredNodes
    (filterLogs Sample.level Sample.display asciiLowerCase (batch Demo.page2) Demo.plain []) =
  Demo.page2.
Proof.
  assert (Hall : ∀ node, In node (allNodes (batch Demo.page2)) →
                         ¬ reservedKind node ∧
                         levels Demo.plain !! Sample.level node = Some true).
  { intros node [<- | [<- | [<- | []]]];
      (split; [intros [Hr | Hr]; discriminate Hr | vm_compute; reflexivity]). }
  assert (Ht : sinceTime Demo.plain = None ∨ sinceTime Demo.plain = Some 0)
    by (left; reflexivity).
  assert (Hq : ¬ queryActive Demo.plain ∨ hideNonMatches Demo.plain = false)
    by (left; vm_compute; tauto).
  split; [exact Hall | split; [exact Ht | split; [exact Hq |]]].
  exact (filterLogs_permissive Sample.level Sample.display asciiLowerCase (batch Demo.page2)
           Demo.plain [] Hall Ht Hq).
Defined.

Lemma default_token_any_case_witness :
  lowersAscii asciiLowerCase ∧
  defaultToken (Sample.term None "FOO") ∧
  isAscii (value (Sample.term None "FOO")) = true ∧
  sameIgnoringCase "fOo" (value (Sample.term None "FOO")) ∧
  message (Sample.node "LogMessageEvent" 1 None "a fOo b") =
    "a " +:+ "fOo" +:+ " b" ∧
  matchesTerm Sample.display asciiLowerCase []
    (Sample.node "LogMessageEvent" 1 None "a fOo b")
    (Sample.term None "FOO") = true.
Proof.
  pose proof asciiLowerCase_lowersAscii as Hl.
  assert (Hd : defaultToken (Sample.term None "FOO"))
    by (repeat split; discriminate).
  assert (Hs : sameIgnoringCase "fOo" (value (Sample.term None "FOO")))
    by (apply asciiLowerCase_sameIgnoringCase; reflexivity).
  split; [exact Hl | split; [exact Hd | split; [reflexivity |]]].
  split; [exact Hs | split; [reflexivity |]].
  exact (default_token_any_case Sample.display asciiLowerCase []
           (Sample.node "LogMessageEvent" 1 None "a fOo b")
           (Sample.term None "FOO") "a " "fOo" " b"
           Hl Hd eq_refl Hs eq_refl).
Defined.

Lemma later_sections_start_with_key_witness :
  In InstanceConfig.sampleSecond
     (tl (InstanceConfig.splitSections InstanceConfig.sampleInfo)) ∧
  InstanceConfig.startsWithWordChar InstanceConfig.sampleSecond = true ∧
  InstanceConfig.sectionId InstanceConfig.sampleSecond ≠ "".
Proof.
  assert (Hin : In InstanceConfig.sampleSecond
                   (tl (InstanceConfig.splitSections InstanceConfig.sampleInfo)))
    by (left; reflexivity).
  split; [exact Hin |].
  exact (later_sections_start_with_key InstanceConfig.sampleInfo
           InstanceConfig.sampleSecond Hin).
Defined.

Lemma sections_hold_one_key_witness :
  In InstanceConfig.sampleFirst
     (InstanceConfig.splitSections InstanceConfig.sampleInfo) ∧
  InstanceConfig.sampleFirst =
    "local_artifact_storage:" +:+
    String InstanceConfig.newline "  module: dagster.core.storage.root" ∧
  InstanceConfig.startsWithWordChar "  module: dagster.core.storage.root" = false.
Proof.
  assert (Hin : In InstanceConfig.sampleFirst
                   (InstanceConfig.splitSections InstanceConfig.sampleInfo))
    by (left; reflexivity).
  split; [exact Hin | split; [reflexivity |]].
  exact (sections_hold_one_key InstanceConfig.sampleInfo
           InstanceConfig.sampleFirst "local_artifact_storage:"
           "  module: dagster.core.storage.root" Hin eq_refl).
Defined.

Lemma highlight_matches_scroll_witness :
  In (InstanceConfig.renderSection "#run_storage" InstanceConfig.sampleSecond)
     (InstanceConfig.renderSections InstanceConfig.sampleInfo "#run_storage") ∧
  InstanceConfig.scrollTarget "#run_storage" = Some "run_storage" ∧
  InstanceConfig.highlighted
    (InstanceConfig.renderSection "#run_storage" InstanceConfig.sampleSecond) =
  true.
Proof.
  assert (Hin : In (InstanceConfig.renderSection "#run_storage"
                      InstanceConfig.sampleSecond)
                   (InstanceConfig.renderSections InstanceConfig.sampleInfo
                      "#run_storage"))
    by (right; left; reflexivity).
  destruct (highlight_matches_scroll InstanceConfig.sampleInfo "#run_storage"
              _ Hin) as (Hscroll & Hback & _).
  split; [exact Hin |].
  split; [apply Hscroll; reflexivity |].
  apply (Hback "run_storage"); reflexivity.
Defined.
